(** * device.h: the configuration header of the deep-sleep temperature sketch

    The repository's only source file is [device.h], a header of twelve lines:
    one [#include] of the sensor driver and six object-like [#define]s.  What
    the header means is what the C preprocessor makes of it, so the
    development has three layers:

    - [Lex]: the header's text is read line by line into directives and
      preprocessing tokens;
    - [Cpp]: directives act on a macro table (a [gmap] from macro names to
      replacement lists) and identifiers are macro-expanded against it;
    - [DeviceH]: the text of [device.h] itself, and the statements about it.

    The driver header [DHT.h] is third-party code that is not part of the
    repository; whatever it does to the macro table is a parameter of the
    preprocessor ([include_file]) and every statement holds for all of its
    possible values. *)

From Stdlib Require Import ZArith List Ascii String Bool Lia.
From stdpp Require Import base strings gmap.
Import ListNotations.

Local Open Scope string_scope.

(** ** Lexical layer *)

Module Lex.

(** The double-quote character, code 34. *)
Definition dq : ascii := "034"%char.

(** A one-character string holding the double quote, for writing source text. *)
Definition q : string := String dq EmptyString.

Definition is_space (c : ascii) : bool :=
  (c =? " ")%char || (c =? "009")%char.

Definition is_digit (c : ascii) : bool :=
  let n := nat_of_ascii c in (48 <=? n)%nat && (n <=? 57)%nat.

Definition is_ident_start (c : ascii) : bool :=
  let n := nat_of_ascii c in
  ((65 <=? n)%nat && (n <=? 90)%nat)
  || ((97 <=? n)%nat && (n <=? 122)%nat)
  || (c =? "_")%char.

Definition is_ident_char (c : ascii) : bool :=
  is_ident_start c || is_digit c.

Fixpoint all_chars (p : ascii -> bool) (s : string) : bool :=
  match s with
  | EmptyString => true
  | String c s' => p c && all_chars p s'
  end.

Definition is_identifier (s : string) : bool :=
  match s with
  | EmptyString => false
  | String c s' => is_ident_start c && all_chars is_ident_char s'
  end.

Fixpoint skip_ws (s : string) : string :=
  match s with
  | String c s' => if is_space c then skip_ws s' else s
  | EmptyString => EmptyString
  end.

(** The leading run of non-blank characters, and what follows it. *)
Fixpoint take_word (s : string) : string * string :=
  match s with
  | EmptyString => (EmptyString, EmptyString)
  | String c s' =>
      if is_space c then (EmptyString, s)
      else let (w, r) := take_word s' in (String c w, r)
  end.

(** Value of a run of decimal digits, most significant first. *)
Fixpoint decimal_value (acc : Z) (s : string) : Z :=
  match s with
  | EmptyString => acc
  | String c s' =>
      decimal_value (10 * acc + (Z.of_nat (nat_of_ascii c) - 48)) s'
  end.

(** A decimal integer constant of C without suffix: [0], or digits that do not
    start with [0] (a leading [0] would make the constant octal or hex). *)
Definition is_decimal_literal (s : string) : bool :=
  match s with
  | EmptyString => false
  | String c s' =>
      if (c =? "0")%char then
        match s' with EmptyString => true | _ => false end
      else is_digit c && all_chars is_digit s'
  end.

(** Preprocessing tokens, as far as the header needs them.  Anything the lexer
    does not recognise is kept verbatim as [TOther]. *)
Inductive token : Type :=
  | TStr (s : string)      (* string literal, without its quotes *)
  | TInt (n : Z)           (* decimal integer constant *)
  | TIdent (x : string)    (* identifier *)
  | TOther (raw : string).

(** Strips the closing quote of a string literal whose opening quote has
    already been removed. *)
Fixpoint unquote (s : string) : option string :=
  match s with
  | EmptyString => None
  | String c EmptyString =>
      if (c =? dq)%char then Some EmptyString else None
  | String c s' => option_map (String c) (unquote s')
  end.

Definition classify (w : string) : token :=
  match w with
  | EmptyString => TOther w
  | String c rest =>
      if (c =? dq)%char then
        match unquote rest with
        | Some body => TStr body
        | None => TOther w
        end
      else if is_digit c then
        if is_decimal_literal w then TInt (decimal_value 0 w) else TOther w
      else if is_identifier w then TIdent w
      else TOther w
  end.

Inductive scan_state : Type :=
  | Out    (* between or inside unquoted words *)
  | InQ    (* inside a string literal *)
  | Esc.   (* inside a string literal, right after a backslash *)

Definition flush (cur : string) : list string :=
  match cur with
  | EmptyString => []
  | _ => [cur]
  end.

Definition snoc (cur : string) (c : ascii) : string :=
  cur +:+ String c EmptyString.

(** Splits a replacement list into the spellings of its tokens: blanks
    separate words, a string literal is one word with its quotes, and a
    [//] outside a literal ends the line. *)
Fixpoint scan (st : scan_state) (cur : string) (s : string) : list string :=
  match s with
  | EmptyString => flush cur
  | String c s' =>
      match st with
      | Out =>
          if is_space c then flush cur ++ scan Out EmptyString s'
          else if (c =? dq)%char then
            flush cur ++ scan InQ (String c EmptyString) s'
          else
            match c, s' with
            | "/"%char, String "/"%char _ => flush cur
            | _, _ => scan Out (snoc cur c) s'
            end
      | InQ =>
          if (c =? dq)%char then snoc cur c :: scan Out EmptyString s'
          else if (c =? "\")%char then scan Esc (snoc cur c) s'
          else scan InQ (snoc cur c) s'
      | Esc => scan InQ (snoc cur c) s'
      end
  end.

Definition tokens (s : string) : list token :=
  map classify (scan Out EmptyString s).

Inductive include_form : Type :=
  | Quoted    (* #include "file" *)
  | Angled.   (* #include <file> *)

Fixpoint unangle (s : string) : option string :=
  match s with
  | EmptyString => None
  | String c EmptyString =>
      if (c =? ">")%char then Some EmptyString else None
  | String c s' => option_map (String c) (unangle s')
  end.

Definition header_name (w : string) : option (include_form * string) :=
  match w with
  | EmptyString => None
  | String c rest =>
      if (c =? dq)%char then option_map (pair Quoted) (unquote rest)
      else if (c =? "<")%char then option_map (pair Angled) (unangle rest)
      else None
  end.

(** One line of a header, as the preprocessor sees it. *)
Inductive line : Type :=
  | LBlank
  | LComment (text : string)
  | LInclude (form : include_form) (file : string)
  | LDefine (name : string) (body : list token)
  | LUndef (name : string)
  | LDirective (name rest : string)   (* any other directive: #if, #pragma.. *)
  | LCode (text : string).            (* anything that is not a directive *)

Definition parse_directive (t : string) : line :=
  let (d, rest) := take_word (skip_ws t) in
  if String.eqb d "include" then
    match scan Out EmptyString rest with
    | [w] =>
        match header_name w with
        | Some (form, file) => LInclude form file
        | None => LDirective d rest
        end
    | _ => LDirective d rest
    end
  else if String.eqb d "define" then
    let (x, body) := take_word (skip_ws rest) in
    if is_identifier x then LDefine x (tokens body) else LDirective d rest
  else if String.eqb d "undef" then
    match scan Out EmptyString rest with
    | [x] => if is_identifier x then LUndef x else LDirective d rest
    | _ => LDirective d rest
    end
  else LDirective d rest.

Definition parse_line (s : string) : line :=
  match skip_ws s with
  | EmptyString => LBlank
  | String "/"%char (String "/"%char t) => LComment t
  | String "#"%char t => parse_directive t
  | code => LCode code
  end.

Definition parse (text : list string) : list line := map parse_line text.

End Lex.

Import Lex.

(** ** Preprocessor layer *)

Module Cpp.

(** The macro table: every object-like macro in force, with its replacement
    list. *)
Abbreviation macros := (gmap string (list token)).

Section Preprocessor.

(** What including a file does to the macro table.  The files a header
    includes are not part of the header, so their effect is left open. *)
Variable include_file : include_form -> string -> macros -> macros.

(** One directive.  A [#define] of a name that is already a macro replaces
    the older definition, as compilers do after their diagnostic.
    Conditional groups, pragmas and program text are not interpreted: the
    model speaks for headers made of includes and object-like definitions
    only, which is what [device.h] is. *)
Definition directive (M : macros) (l : line) : macros :=
  match l with
  | LInclude form file => include_file form file M
  | LDefine x body => <[x := body]> M
  | LUndef x => delete x M
  | LBlank | LComment _ | LDirective _ _ | LCode _ => M
  end.

Definition preprocess (ls : list line) (M : macros) : macros :=
  fold_left directive ls M.

End Preprocessor.

(** Macro replacement with rescanning.  [hide] holds the macros that are
    being replaced: inside its own replacement a macro name stays as it is.
    Each nested replacement uses one unit of [fuel]. *)
Fixpoint expand (fuel : nat) (hide : list string) (M : macros)
    (ts : list token) : list token :=
  match fuel with
  | O => ts
  | S fuel' =>
      flat_map
        (fun t =>
           match t with
           | TIdent x =>
               if bool_decide (x ∈ hide) then [t]
               else match M !! x with
                    | Some body => expand fuel' (x :: hide) M body
                    | None => [t]
                    end
           | _ => [t]
           end) ts
  end.

Definition is_ident (t : token) : bool :=
  match t with TIdent _ => true | _ => false end.

(** The macros that can still be replaced: those of the table that are not
    being replaced already.  Every nested replacement removes one. *)
Definition replaceable (hide : list string) (M : macros) : gset string :=
  dom M ∖ list_to_set hide.

(** Replacement carried to its end: nesting is never deeper than the number
    of macros, so this much fuel is never used up. *)
Definition expand_full (hide : list string) (M : macros)
    (ts : list token) : list token :=
  expand (S (size M)) hide M ts.

(** *** Reading a header without running it *)

Definition defines (ls : list line) : list (string * list token) :=
  flat_map (fun l => match l with LDefine x b => [(x, b)] | _ => [] end) ls.

Definition includes (ls : list line) : list (include_form * string) :=
  flat_map (fun l => match l with LInclude f n => [(f, n)] | _ => [] end) ls.

Definition undefs (ls : list line) : list string :=
  flat_map (fun l => match l with LUndef x => [x] | _ => [] end) ls.

(** The replacement lists given to [x], in the order of their definitions. *)
Definition definitions_of (x : string) (ls : list line) : list (list token) :=
  flat_map
    (fun l =>
       match l with
       | LDefine y b => if String.eqb x y then [b] else []
       | _ => []
       end) ls.

(** The lines below the first definition of [x]. *)
Fixpoint after_definition (x : string) (ls : list line) : list line :=
  match ls with
  | [] => []
  | LDefine y _ :: ls' =>
      if String.eqb x y then ls' else after_definition x ls'
  | _ :: ls' => after_definition x ls'
  end.

(** Lines that are neither layout, nor an include, nor a definition:
    program text and every other directive (conditionals among them). *)
Definition is_other (l : line) : bool :=
  match l with
  | LUndef _ | LDirective _ _ | LCode _ => true
  | LBlank | LComment _ | LInclude _ _ | LDefine _ _ => false
  end.

(** Blank lines and comments. *)
Definition is_layout (l : line) : bool :=
  match l with
  | LBlank | LComment _ => true
  | LInclude _ _ | LDefine _ _ | LUndef _ | LDirective _ _ | LCode _ => false
  end.

(** Can the line change what [x] stands for? *)
Definition touches (x : string) (l : line) : bool :=
  match l with
  | LDefine y _ | LUndef y => String.eqb x y
  | LInclude _ _ => true
  | LBlank | LComment _ | LDirective _ _ | LCode _ => false
  end.

(** What is known about one macro name while reading a header top down. *)
Inductive status : Type :=
  | Known (v : option (list token))   (* the table's entry, whatever came before *)
  | Unknown.                          (* depends on an included file *)

Definition track (x : string) (st : status) (l : line) : status :=
  match l with
  | LDefine y b => if String.eqb x y then Known (Some b) else st
  | LUndef y => if String.eqb x y then Known None else st
  | LInclude _ _ => Unknown
  | LBlank | LComment _ | LDirective _ _ | LCode _ => st
  end.

Definition agrees (x : string) (st : status) (M : macros) : Prop :=
  match st with
  | Known v => M !! x = v
  | Unknown => True
  end.

(** *** Kinds of constants *)

Inductive kind : Type :=
  | KString     (* a string literal *)
  | KInteger    (* an integer literal *)
  | KSymbol     (* the name of a constant declared elsewhere *)
  | KOther.

Definition kind_of (body : list token) : kind :=
  match body with
  | [TStr _] => KString
  | [TInt _] => KInteger
  | [TIdent _] => KSymbol
  | _ => KOther
  end.

Definition int_value (body : list token) : option Z :=
  match body with
  | [TInt n] => Some n
  | _ => None
  end.

Definition int_constants (ls : list line) : list (string * Z) :=
  flat_map
    (fun d => match int_value (snd d) with
              | Some n => [(fst d, n)]
              | None => []
              end) (defines ls).

(** Conversions to fixed-width integers, with their wrap-around. *)
Definition to_u8 (n : Z) : Z := n mod 256.

Definition to_i16 (n : Z) : Z := (n + 32768) mod 65536 - 32768.

Fixpoint last_char (s : string) : option ascii :=
  match s with
  | EmptyString => None
  | String c EmptyString => Some c
  | String _ s' => last_char s'
  end.

End Cpp.

Import Cpp.

(** ** The header *)

Module DeviceH.

(** The text of [device.h], one string per line. *)
Definition device_h_text : list string :=
  [ "#include " +:+ q +:+ "DHT.h" +:+ q;
    EmptyString;
    "// Your device details";
    "#define MQTT_TOPIC_PREFIX " +:+ q +:+ "home/" +:+ q;
    "#define DEVICE_SLEEP      10";
    "#define RETRY_COUNT       600";
    EmptyString;
    "// Sensor definition & init";
    "#define DHTPIN 2";
    "#define DHTTYPE DHT11";
    EmptyString;
    "#define IPNR 251" ].

Definition device_h : list line := parse device_h_text.

(** Size of the file in bytes: the lines and the newlines between them. *)
Definition byte_size (text : list string) : nat :=
  fold_right (fun l n => String.length l + n)%nat 0%nat text
  + (List.length text - 1).

Section Values.

Variable include_file : include_form -> string -> macros -> macros.

(** Macros in force before the header is read (compiler built-ins, the
    including file's own definitions). *)
Variable M0 : macros.

Definition table : macros := preprocess include_file device_h M0.

(** What a use of the macro [name] is replaced by after the header. *)
Definition value (fuel : nat) (name : string) : list token :=
  expand fuel [] table [TIdent name].

(** The same with replacement carried to its end. *)
Definition full_value (name : string) : list token :=
  expand_full [] table [TIdent name].

Definition MQTT_TOPIC_PREFIX (fuel : nat) := value fuel "MQTT_TOPIC_PREFIX".
Definition DEVICE_SLEEP (fuel : nat) := value fuel "DEVICE_SLEEP".
Definition RETRY_COUNT (fuel : nat) := value fuel "RETRY_COUNT".
Definition DHTPIN (fuel : nat) := value fuel "DHTPIN".
Definition DHTTYPE (fuel : nat) := value fuel "DHTTYPE".
Definition IPNR (fuel : nat) := value fuel "IPNR".

End Values.

(** A driver header whose only effect on the macros is
    [#define DHT11 11]. *)
Definition macro_driver (form : include_form) (file : string)
    (M : macros) : macros :=
  <["DHT11" := [TInt 11]]> M.

(** A driver header that defines no macro: [DHT11] is declared in the
    language proper, as an enumerator or a constant. *)
Definition plain_driver (form : include_form) (file : string)
    (M : macros) : macros :=
  M.

(** The names the header defines, in source order. *)
Definition constant_names : list string :=
  [ "MQTT_TOPIC_PREFIX"; "DEVICE_SLEEP"; "RETRY_COUNT";
    "DHTPIN"; "DHTTYPE"; "IPNR" ].

End DeviceH.

Import DeviceH.

(** * Properties *)

(** Closes a goal that only asks to read the text of the header. *)
Local Ltac by_reading := vm_compute; reflexivity.

(** ** The preprocessor *)

Lemma eqb_false_ne (x y : string) : String.eqb x y = false -> y <> x.
Proof. intros H E. subst. rewrite String.eqb_refl in H. discriminate. Qed.

Lemma directive_untouched inc (x : string) (l : line) (M : macros) :
  touches x l = false -> directive inc M l !! x = M !! x.
Proof.
  destruct l as [| | | y b | y | |]; simpl; intros H; try reflexivity;
    try discriminate.
  - apply lookup_insert_ne. now apply eqb_false_ne.
  - apply lookup_delete_ne. now apply eqb_false_ne.
Qed.

(** Lines that do not touch [x] leave its entry alone. *)
Lemma preprocess_untouched inc (x : string) (ls : list line) :
  forall M : macros,
    forallb (fun l => negb (touches x l)) ls = true ->
    preprocess inc ls M !! x = M !! x.
Proof.
  induction ls as [| l ls IH]; intros M H; simpl in *.
  - reflexivity.
  - apply andb_true_iff in H as [Hl Hls].
    apply negb_true_iff in Hl.
    unfold preprocess in *. simpl.
    rewrite (IH _ Hls). now apply directive_untouched.
Qed.

(** A name keeps the replacement list of its first definition when no line
    below that definition touches it. *)
Lemma preprocess_first_definition inc (x : string) (b : list token)
    (bs : list (list token)) (ls : list line) :
  forall M : macros,
    definitions_of x ls = b :: bs ->
    forallb (fun l => negb (touches x l)) (after_definition x ls) = true ->
    preprocess inc ls M !! x = Some b.
Proof.
  induction ls as [| l ls IH]; intros M D U; [discriminate |].
  change (preprocess inc (l :: ls) M)
    with (preprocess inc ls (directive inc M l)).
  destruct l as [| | | y c | | |]; simpl in D, U; try (now apply IH).
  destruct (String.eqb x y) eqn:E.
  - apply String.eqb_eq in E. subst y. injection D as -> _.
    rewrite (preprocess_untouched inc x ls _ U). apply lookup_insert_eq.
  - now apply IH.
Qed.

Lemma track_agrees inc (x : string) (l : line) (st : status) (M : macros) :
  agrees x st M -> agrees x (track x st l) (directive inc M l).
Proof.
  intros H. destruct l as [| | | y b | y | |]; simpl; try exact H.
  - exact I.
  - destruct (String.eqb x y) eqn:E.
    + apply String.eqb_eq in E. subst. simpl. apply lookup_insert_eq.
    + destruct st as [v |]; simpl in *; [| exact I].
      rewrite lookup_insert_ne; [exact H | now apply eqb_false_ne].
  - destruct (String.eqb x y) eqn:E.
    + apply String.eqb_eq in E. subst. simpl. apply lookup_delete_eq.
    + destruct st as [v |]; simpl in *; [| exact I].
      rewrite lookup_delete_ne; [exact H | now apply eqb_false_ne].
Qed.

(** Tracking a name through a header predicts its entry in the table. *)
Lemma track_sound inc (x : string) (ls : list line) :
  forall (st : status) (M : macros),
    agrees x st M ->
    agrees x (fold_left (track x) ls st) (preprocess inc ls M).
Proof.
  induction ls as [| l ls IH]; intros st M H; simpl.
  - exact H.
  - apply IH. now apply track_agrees.
Qed.

Lemma track_known inc (x : string) (ls : list line) (v : option (list token))
    (M : macros) :
  fold_left (track x) ls Unknown = Known v ->
  preprocess inc ls M !! x = v.
Proof.
  intros H. pose proof (track_sound inc x ls Unknown M I) as A.
  rewrite H in A. exact A.
Qed.

(** ** Macro replacement *)

Lemma expand_no_ident (fuel : nat) (hide : list string) (M : macros)
    (ts : list token) :
  forallb (fun t => negb (is_ident t)) ts = true ->
  expand fuel hide M ts = ts.
Proof.
  destruct fuel as [| fuel]; [reflexivity |]. simpl.
  induction ts as [| t ts IH]; simpl; intros H; [reflexivity |].
  apply andb_true_iff in H as [Ht Hts].
  rewrite (IH Hts). destruct t; simpl in *; try reflexivity; discriminate.
Qed.

Lemma expand_defined (fuel : nat) (M : macros) (x : string)
    (body : list token) :
  M !! x = Some body ->
  expand (S fuel) [] M [TIdent x] = expand fuel [x] M body.
Proof.
  intros H. simpl. rewrite H. apply app_nil_r.
Qed.

Lemma expand_S (fuel : nat) (hide : list string) (M : macros)
    (ts : list token) :
  expand (S fuel) hide M ts =
  flat_map
    (fun t =>
       match t with
       | TIdent x =>
           if bool_decide (x ∈ hide) then [t]
           else match M !! x with
                | Some body => expand fuel (x :: hide) M body
                | None => [t]
                end
       | _ => [t]
       end) ts.
Proof. reflexivity. Qed.

(** Replacing a macro leaves strictly fewer macros to replace inside. *)
Lemma replaceable_cons_lt (hide : list string) (M : macros) (x : string)
    (body : list token) :
  x ∉ hide -> M !! x = Some body ->
  (size (replaceable (x :: hide) M) < size (replaceable hide M))%nat.
Proof.
  intros Hx Hm. apply subset_size. unfold replaceable.
  assert (Hd : x ∈ dom M) by (apply elem_of_dom; eauto).
  split.
  - intros y. rewrite !elem_of_difference, !elem_of_list_to_set.
    intros [Hy Hn]. split; [exact Hy |].
    intros Hh. apply Hn. now apply list_elem_of_further.
  - intros Hs. specialize (Hs x).
    rewrite !elem_of_difference, !elem_of_list_to_set in Hs.
    destruct Hs as [_ Hn]; [split; [exact Hd | exact Hx] |].
    apply Hn. apply list_elem_of_here.
Qed.

Lemma replaceable_size_le (hide : list string) (M : macros) :
  (size (replaceable hide M) <= size M)%nat.
Proof.
  rewrite <- (size_dom (D := gset string) M).
  apply subseteq_size. unfold replaceable. apply subseteq_difference_l.
  reflexivity.
Qed.

(** One more unit of fuel changes nothing once the fuel exceeds the number
    of macros left to replace. *)
Lemma expand_stable (fuel : nat) :
  forall (hide : list string) (M : macros) (ts : list token),
    (size (replaceable hide M) < fuel)%nat ->
    expand (S fuel) hide M ts = expand fuel hide M ts.
Proof.
  induction fuel as [| fuel IH]; intros hide M ts H; [lia |].
  rewrite (expand_S (S fuel)), (expand_S fuel).
  apply flat_map_ext. intros [s | n | x | r]; try reflexivity.
  case_bool_decide as Hx; [reflexivity |].
  destruct (M !! x) as [body |] eqn:Hm; [| reflexivity].
  apply IH. pose proof (replaceable_cons_lt hide M x body Hx Hm). lia.
Qed.

Lemma expand_more (k fuel : nat) (hide : list string) (M : macros)
    (ts : list token) :
  (size (replaceable hide M) < fuel)%nat ->
  expand (fuel + k) hide M ts = expand fuel hide M ts.
Proof.
  intros H. induction k as [| k IH].
  - now rewrite Nat.add_0_r.
  - rewrite Nat.add_succ_r, expand_stable by lia. exact IH.
Qed.

(** Every amount of fuel above the number of macros gives the complete
    replacement. *)
Lemma expand_enough (k : nat) (hide : list string) (M : macros)
    (ts : list token) :
  expand (S (size M) + k) hide M ts = expand_full hide M ts.
Proof.
  unfold expand_full. apply expand_more.
  pose proof (replaceable_size_le hide M). lia.
Qed.

(** ** The text of [device.h] *)

Lemma device_h_parsed :
  device_h =
  [ LInclude Quoted "DHT.h";
    LBlank;
    LComment " Your device details";
    LDefine "MQTT_TOPIC_PREFIX" [TStr "home/"];
    LDefine "DEVICE_SLEEP" [TInt 10];
    LDefine "RETRY_COUNT" [TInt 600];
    LBlank;
    LComment " Sensor definition & init";
    LDefine "DHTPIN" [TInt 2];
    LDefine "DHTTYPE" [TIdent "DHT11"];
    LBlank;
    LDefine "IPNR" [TInt 251] ].
Proof. vm_compute. reflexivity. Qed.

Lemma device_h_byte_size : byte_size device_h_text = 219%nat.
Proof. vm_compute. reflexivity. Qed.

(** The entry of a name that the header defines, for every driver. *)
Lemma table_lookup inc (M0 : macros) (x : string) (body : list token) :
  fold_left (track x) device_h Unknown = Known (Some body) ->
  table inc M0 !! x = Some body.
Proof. intros H. unfold table. now apply track_known. Qed.

Lemma value_literal inc (M0 : macros) (fuel : nat) (x : string)
    (body : list token) :
  fold_left (track x) device_h Unknown = Known (Some body) ->
  forallb (fun t => negb (is_ident t)) body = true ->
  value inc M0 (S fuel) x = body.
Proof.
  intros H L. unfold value.
  rewrite (expand_defined fuel _ x body (table_lookup inc M0 x body H)).
  now apply expand_no_ident.
Qed.

Lemma table_after_include inc (M0 : macros) (x : string) :
  forallb (fun l => negb (touches x l)) (tl device_h) = true ->
  table inc M0 !! x = inc Quoted "DHT.h" M0 !! x.
Proof.
  intros H. unfold table. rewrite device_h_parsed in *.
  change (preprocess inc (LInclude Quoted "DHT.h" :: ?ls) M0)
    with (preprocess inc ls (inc Quoted "DHT.h" M0)).
  now apply preprocess_untouched.
Qed.

(** A use of [DHTTYPE], replaced to the end: the name [DHT11] where the
    driver has no macro of that name, and the complete replacement of the
    driver's macro [DHT11] where it has one. *)
Lemma full_value_DHTTYPE inc (M0 : macros) :
  full_value inc M0 "DHTTYPE" =
  match inc Quoted "DHT.h" M0 !! "DHT11" with
  | None => [TIdent "DHT11"]
  | Some body => expand_full ["DHT11"; "DHTTYPE"]%string (table inc M0) body
  end.
Proof.
  assert (E : table inc M0 !! "DHTTYPE" = Some [TIdent "DHT11"])
    by (apply table_lookup; by_reading).
  assert (D : table inc M0 !! "DHT11" = inc Quoted "DHT.h" M0 !! "DHT11")
    by (apply table_after_include; by_reading).
  unfold full_value, expand_full.
  rewrite (expand_defined _ _ _ _ E).
  pose proof (replaceable_cons_lt [] (table inc M0) "DHTTYPE" _
                (not_elem_of_nil _) E) as L1.
  pose proof (replaceable_size_le [] (table inc M0)) as L0.
  destruct (size (table inc M0)) as [| n] eqn:Sz; [lia |].
  rewrite expand_S. cbn [flat_map].
  rewrite bool_decide_eq_false_2
    by (rewrite list_elem_of_singleton; discriminate).
  rewrite D, app_nil_r.
  destruct (inc Quoted "DHT.h" M0 !! "DHT11") as [body |] eqn:Hd;
    [| reflexivity].
  assert (Hn : "DHT11"%string ∉ ["DHTTYPE"%string])
    by (rewrite list_elem_of_singleton; discriminate).
  pose proof (replaceable_cons_lt _ (table inc M0) "DHT11" body Hn D) as L2.
  symmetry.
  replace (S (S n)) with (n + 2)%nat by lia.
  apply expand_more. lia.
Qed.

(** ** The reader on other lines

    None of these occur in [device.h]; they show what the reader makes of
    lines the header could have had. *)

Example parse_octal : parse_line "#define MODE 010" = LDefine "MODE" [TOther "010"].
Proof. by_reading. Qed.

Example parse_trailing_comment :
  parse_line "  #  define PIN 4 // D2" = LDefine "PIN" [TInt 4].
Proof. by_reading. Qed.

Example parse_spaced_literal :
  parse_line ("#define GREETING " +:+ q +:+ "a  b" +:+ q +:+ " X")
  = LDefine "GREETING" [TStr "a  b"; TIdent "X"].
Proof. by_reading. Qed.

Example parse_function_like :
  parse_line "#define SQ(x) x*x" = LDirective "define" " SQ(x) x*x".
Proof. by_reading. Qed.

Example parse_undef : parse_line "#undef IPNR" = LUndef "IPNR".
Proof. by_reading. Qed.

Example parse_conditional :
  parse_line "#ifdef ESP8266" = LDirective "ifdef" " ESP8266".
Proof. by_reading. Qed.

Example parse_angled :
  parse_line "#include <Arduino.h>" = LInclude Angled "Arduino.h".
Proof. by_reading. Qed.

Example parse_code :
  parse_line "void setup() {" = LCode "void setup() {".
Proof. by_reading. Qed.

(** A later definition replaces an earlier one, and [#undef] removes it. *)
Example redefinition_wins inc (M : macros) :
  preprocess inc [LDefine "N" [TInt 1]; LDefine "N" [TInt 2]] M !! "N"
  = Some [TInt 2].
Proof. apply track_known. by_reading. Qed.

Example undef_removes inc (M : macros) :
  preprocess inc [LDefine "N" [TInt 1]; LUndef "N"] M !! "N" = None.
Proof. apply track_known. by_reading. Qed.

(** A macro is not replaced again inside its own replacement. *)
Example expand_self_reference (M : macros) (fuel : nat) :
  expand (S (S fuel)) [] (<["N" := [TIdent "N"; TInt 1]]> M) [TIdent "N"]
  = [TIdent "N"; TInt 1].
Proof.
  rewrite (expand_defined _ _ _ [TIdent "N"; TInt 1])
    by apply lookup_insert_eq.
  reflexivity.
Qed.

(** With a driver that makes [DHT11] a macro for 11, [DHTTYPE] ends up as
    11; with a driver that declares [DHT11] in the language proper, the
    name is handed on to the compiler. *)
Example DHTTYPE_macro_driver (M0 : macros) (fuel : nat) :
  DHTTYPE (fun _ _ M => <["DHT11" := [TInt 11]]> M) M0 (S (S fuel))
  = [TInt 11].
Proof.
  unfold DHTTYPE, value.
  rewrite (expand_defined _ _ _ [TIdent "DHT11"])
    by (apply table_lookup; by_reading).
  cbn [expand flat_map]. rewrite bool_decide_eq_false_2.
  - rewrite table_after_include by by_reading.
    rewrite lookup_insert_eq. now rewrite expand_no_ident.
  - rewrite list_elem_of_singleton. discriminate.
Qed.

Example DHTTYPE_plain_driver (M0 : macros) (fuel : nat) :
  M0 !! "DHT11" = None ->
  DHTTYPE (fun _ _ M => M) M0 (S (S fuel)) = [TIdent "DHT11"].
Proof.
  intros H. unfold DHTTYPE, value.
  rewrite (expand_defined _ _ _ [TIdent "DHT11"])
    by (apply table_lookup; by_reading).
  cbn [expand flat_map]. rewrite bool_decide_eq_false_2.
  - rewrite table_after_include by by_reading. now rewrite H.
  - rewrite list_elem_of_singleton. discriminate.
Qed.

Example DHTTYPE_is_name_under_plain_driver :
  full_value plain_driver ∅ "DHTTYPE" = [TIdent "DHT11"].
Proof. rewrite full_value_DHTTYPE. reflexivity. Qed.

(** ** The constants *)

Local Open Scope Z_scope.

(** C1: after the header has been read, whatever the driver header and the
    earlier definitions are, the macro [DEVICE_SLEEP] stands for the single
    token [10]: that is its entry in the macro table, and every use of the
    name is replaced by the integer literal 10. *)
Theorem DEVICE_SLEEP_is_10 inc (M0 : macros) (fuel : nat) :
  table inc M0 !! "DEVICE_SLEEP" = Some [TInt 10] /\
  DEVICE_SLEEP inc M0 (S fuel) = [TInt 10].
Proof.
  split; [apply table_lookup | apply value_literal]; by_reading.
Qed.

(** C2: the macro [RETRY_COUNT] stands for the integer literal 600, in the
    macro table and at every use. *)
Theorem RETRY_COUNT_is_600 inc (M0 : macros) (fuel : nat) :
  table inc M0 !! "RETRY_COUNT" = Some [TInt 600] /\
  RETRY_COUNT inc M0 (S fuel) = [TInt 600].
Proof.
  split; [apply table_lookup | apply value_literal]; by_reading.
Qed.

(** C3: the macro [DHTPIN] stands for the integer literal 2, in the macro
    table and at every use. *)
Theorem DHTPIN_is_2 inc (M0 : macros) (fuel : nat) :
  table inc M0 !! "DHTPIN" = Some [TInt 2] /\
  DHTPIN inc M0 (S fuel) = [TInt 2].
Proof.
  split; [apply table_lookup | apply value_literal]; by_reading.
Qed.

(** C4: the macro [IPNR] stands for the integer literal 251, in the macro
    table and at every use. *)
Theorem IPNR_is_251 inc (M0 : macros) (fuel : nat) :
  table inc M0 !! "IPNR" = Some [TInt 251] /\
  IPNR inc M0 (S fuel) = [TInt 251].
Proof.
  split; [apply table_lookup | apply value_literal]; by_reading.
Qed.

(** C5: [MQTT_TOPIC_PREFIX] is replaced by one string literal, so its kind is
    string and neither integer nor symbol; the literal is [home/], and its
    last character is the topic-level separator [/]. *)
Theorem MQTT_TOPIC_PREFIX_is_home inc (M0 : macros) (fuel : nat) :
  exists s : string,
    MQTT_TOPIC_PREFIX inc M0 (S fuel) = [TStr s] /\
    kind_of (MQTT_TOPIC_PREFIX inc M0 (S fuel)) = KString /\
    kind_of (MQTT_TOPIC_PREFIX inc M0 (S fuel)) <> KInteger /\
    kind_of (MQTT_TOPIC_PREFIX inc M0 (S fuel)) <> KSymbol /\
    s = "home/"%string /\
    last_char s = Some "/"%char.
Proof.
  assert (E : MQTT_TOPIC_PREFIX inc M0 (S fuel) = [TStr "home/"])
    by (apply value_literal; by_reading).
  exists "home/"%string. rewrite E. simpl.
  repeat split; discriminate.
Qed.

(** C6, as amended: the header defines [DHTTYPE] as the single identifier
    [DHT11], a symbolic name and not an integer literal, and gives [DHT11]
    no definition of its own, so the table's entry for [DHT11] is the one
    the included driver header [DHT.h] left.  What a use of [DHTTYPE]
    finally stands for is therefore the driver's choice, and the same for
    every amount of fuel above the number of macros: the name [DHT11]
    itself when the driver has no macro of that name (an enumerator or a
    constant of the language), and the complete replacement of the driver's
    macro [DHT11] otherwise. *)
Theorem DHTTYPE_is_driver_symbol inc (M0 : macros) (k : nat) :
  table inc M0 !! "DHTTYPE" = Some [TIdent "DHT11"] /\
  kind_of <$> table inc M0 !! "DHTTYPE" = Some KSymbol /\
  (forall n : Z, table inc M0 !! "DHTTYPE" <> Some [TInt n]) /\
  definitions_of "DHT11" device_h = [] /\
  table inc M0 !! "DHT11" = inc Quoted "DHT.h" M0 !! "DHT11" /\
  DHTTYPE inc M0 (S (size (table inc M0)) + k) = full_value inc M0 "DHTTYPE" /\
  full_value inc M0 "DHTTYPE" =
    match inc Quoted "DHT.h" M0 !! "DHT11" with
    | None => [TIdent "DHT11"]
    | Some body =>
        expand_full ["DHT11"; "DHTTYPE"]%string (table inc M0) body
    end.
Proof.
  assert (E : table inc M0 !! "DHTTYPE" = Some [TIdent "DHT11"])
    by (apply table_lookup; by_reading).
  split; [| split; [| split; [| split; [| split; [| split]]]]].
  - exact E.
  - rewrite E. reflexivity.
  - intros n. rewrite E. discriminate.
  - by_reading.
  - apply table_after_include. by_reading.
  - unfold DHTTYPE, value, full_value. apply expand_enough.
  - apply full_value_DHTTYPE.
Qed.

(** C6, as stated, fails: under a driver header that says
    [#define DHT11 11], a use of [DHTTYPE] is replaced by the bare integer
    literal 11. *)
Lemma DHTTYPE_is_literal_under_macro_driver :
  full_value macro_driver ∅ "DHTTYPE" = [TInt 11] /\
  kind_of (full_value macro_driver ∅ "DHTTYPE") = KInteger /\
  int_value (full_value macro_driver ∅ "DHTTYPE") = Some 11.
Proof.
  assert (E : full_value macro_driver ∅ "DHTTYPE" = [TInt 11]).
  { rewrite full_value_DHTTYPE. unfold macro_driver at 1.
    rewrite lookup_insert_eq. now apply expand_no_ident. }
  rewrite E. repeat split.
Qed.

(** C7: the integer that [IPNR] stands for lies between 0 and 255, so
    converting it to an unsigned 8-bit integer (one octet of an IPv4
    address) leaves it unchanged. *)
Theorem IPNR_is_octet inc (M0 : macros) (fuel : nat) :
  exists n : Z,
    int_value (IPNR inc M0 (S fuel)) = Some n /\
    0 <= n <= 255 /\
    to_u8 n = n.
Proof.
  exists 251. unfold IPNR.
  rewrite (value_literal inc M0 fuel "IPNR" [TInt 251]) by by_reading.
  repeat split; [lia | lia].
Qed.

(** C8: the header defines exactly the six names, no name twice and none
    undefined again; for each of them the header holds one definition, no
    line below that definition (no [#define], [#undef] or [#include])
    touches the name, and the macro table after the whole header maps the
    name to the replacement list of that definition, whatever the driver
    header and the earlier definitions are. *)
Theorem constants_defined_once_and_fixed inc (M0 : macros) :
  map fst (defines device_h) = constant_names /\
  NoDup constant_names /\
  undefs device_h = [] /\
  Forall
    (fun d =>
       definitions_of (fst d) device_h = [snd d] /\
       forallb (fun l => negb (touches (fst d) l))
         (after_definition (fst d) device_h) = true /\
       table inc M0 !! fst d = Some (snd d))
    (defines device_h).
Proof.
  split; [by_reading |]. split.
  { apply (bool_decide_unpack _). by_reading. }
  split; [by_reading |].
  assert (D : defines device_h =
              [ ("MQTT_TOPIC_PREFIX"%string, [TStr "home/"]);
                ("DEVICE_SLEEP"%string, [TInt 10]);
                ("RETRY_COUNT"%string, [TInt 600]);
                ("DHTPIN"%string, [TInt 2]);
                ("DHTTYPE"%string, [TIdent "DHT11"]);
                ("IPNR"%string, [TInt 251]) ]) by by_reading.
  rewrite D.
  repeat (apply Forall_cons; split;
          [ split; [by_reading | split; [by_reading |]];
            apply (preprocess_first_definition inc _ _ []); by_reading
          |]).
  apply Forall_nil_2.
Qed.

(** C9: the header consists of one include, of the driver header [DHT.h],
    and six definitions: a string (the topic prefix), three integers (sleep
    interval, retry count, sensor pin), a symbol (the sensor type) and an
    integer (the device number), in this order.  Every other line is blank
    or a comment: there is no program text (functions, declarations or
    statements) and no other directive, conditional ones included. *)
Theorem device_h_is_include_and_six_defines :
  includes device_h = [(Quoted, "DHT.h"%string)] /\
  length (defines device_h) = 6%nat /\
  map fst (defines device_h) = constant_names /\
  map (fun d => kind_of (snd d)) (defines device_h)
    = [KString; KInteger; KInteger; KInteger; KSymbol; KInteger] /\
  List.filter is_other device_h = [] /\
  List.filter (fun l => negb (is_layout l)) device_h
    = LInclude Quoted "DHT.h"
      :: map (fun d => LDefine (fst d) (snd d)) (defines device_h).
Proof. repeat split; by_reading. Qed.

(** C10: the integer constants of the header are [DEVICE_SLEEP],
    [RETRY_COUNT], [DHTPIN] and [IPNR]; each of them is what its name is
    replaced by, is strictly positive and at most 32767, and so survives
    the conversion to a 16-bit signed integer unchanged. *)
Theorem int_constants_positive_int16 inc (M0 : macros) (fuel : nat) :
  map fst (int_constants device_h)
    = [ "DEVICE_SLEEP"; "RETRY_COUNT"; "DHTPIN"; "IPNR" ]%string /\
  Forall
    (fun c =>
       int_value (value inc M0 (S fuel) (fst c)) = Some (snd c) /\
       0 < snd c <= 32767 /\
       to_i16 (snd c) = snd c)
    (int_constants device_h).
Proof.
  split; [by_reading |].
  assert (D : int_constants device_h =
              [ ("DEVICE_SLEEP"%string, 10); ("RETRY_COUNT"%string, 600);
                ("DHTPIN"%string, 2); ("IPNR"%string, 251) ]) by by_reading.
  rewrite D.
  repeat (apply Forall_cons; split;
          [ split; [| split; [simpl; lia | by_reading]];
            simpl fst; simpl snd;
            match goal with
            | |- int_value (value _ _ _ ?x) = Some ?n =>
                rewrite (value_literal inc M0 fuel x [TInt n]) by by_reading;
                reflexivity
            end
          |]).
  apply Forall_nil_2.
Qed.

(** ** The header inside a program *)

Lemma device_h_defines :
  defines device_h =
  [ ("MQTT_TOPIC_PREFIX"%string, [TStr "home/"]);
    ("DEVICE_SLEEP"%string, [TInt 10]);
    ("RETRY_COUNT"%string, [TInt 600]);
    ("DHTPIN"%string, [TInt 2]);
    ("DHTTYPE"%string, [TIdent "DHT11"]);
    ("IPNR"%string, [TInt 251]) ].
Proof. by_reading. Qed.

(** X1: the macro table after the header is the table the driver header
    [DHT.h] produced from the macros in force before, with the header's six
    definitions laid over it.  The driver is read before any of the six
    names is defined, the header's definitions win over the driver's, and
    every other macro is exactly as the driver left it. *)
Theorem table_is_driver_table_with_six_definitions inc (M0 : macros) :
  table inc M0 = list_to_map (defines device_h) ∪ inc Quoted "DHT.h" M0.
Proof.
  rewrite device_h_defines. unfold table. rewrite device_h_parsed.
  unfold preprocess.
  cbn [fold_left directive list_to_map foldr uncurry fst snd].
  apply map_eq. intros x. rewrite lookup_union.
  destruct (decide (x = "IPNR"%string)) as [-> | ?];
    [simplify_map_eq; by destruct (inc _ _ _ !! _) |].
  destruct (decide (x = "DHTTYPE"%string)) as [-> | ?];
    [simplify_map_eq; by destruct (inc _ _ _ !! _) |].
  destruct (decide (x = "DHTPIN"%string)) as [-> | ?];
    [simplify_map_eq; by destruct (inc _ _ _ !! _) |].
  destruct (decide (x = "RETRY_COUNT"%string)) as [-> | ?];
    [simplify_map_eq; by destruct (inc _ _ _ !! _) |].
  destruct (decide (x = "DEVICE_SLEEP"%string)) as [-> | ?];
    [simplify_map_eq; by destruct (inc _ _ _ !! _) |].
  destruct (decide (x = "MQTT_TOPIC_PREFIX"%string)) as [-> | ?];
    [simplify_map_eq; by destruct (inc _ _ _ !! _) |].
  rewrite !lookup_insert_ne by done.
  rewrite lookup_empty. now destruct (inc Quoted "DHT.h" M0 !! x).
Qed.
